(** * The Crossmon design notebook, [1qubit_CrossmonExample.ipynb]

    The notebook is a straight-line script of eight code cells, read here in
    the order of the file, in one Python kernel:

    - the derivation cell computes the target capacitance [C] and inductance
      [L] from the transition frequency and the anharmonicity and prints them;
    - one cell only imports Qiskit Metal (it changes nothing that is modelled),
      one opens the design and its GUI, one creates the qubit;
    - one cell runs the Q3D capacitance extraction, one configures the HFSS
      eigenmode setup, one runs it;
    - the last cell recomputes a frequency from two literals and prints it.

    The kernel is modelled as a record (global numeric variables, the objects
    the cells bind, the chronological trace of observable effects) threaded
    through an error-and-state monad.  Arithmetic is written once, over the
    interface [PyFloat], and read twice: over the real numbers (module
    [Exact], the arithmetic the design formulas are stated in) and over IEEE
    binary64 (module [Binary64], the arithmetic the kernel runs, used to replay
    the outputs recorded in the notebook). *)

From Stdlib Require Import ZArith QArith Qreals Reals Lra Lia Floats Ascii String.
From stdpp Require Import base option list strings gmap.

Local Open Scope Z_scope.
Local Open Scope string_scope.

(** ** Numbers *)

(** A Python numeric literal [m e k], the decimal [m * 10^k]: [250e6] is
    [Lit 250 6], [1.60217657e-19] is [Lit 160217657 (-27)], the integer [2] is
    [Lit 2 0]. *)
Record literal : Set := Lit { mantissa : Z; exponent10 : Z }.

(** The exceptions the script can raise. [InvalidValue] is NumPy's "invalid
    value encountered in sqrt"; [ValueError] is what the framework raises for
    a component name already in use. *)
Inductive py_error : Set :=
| NameError (x : string)
| ZeroDivisionError
| OverflowError
| InvalidValue
| ValueError.

Definition result (A : Type) : Type := py_error + A.

(** The operations on floats the notebook uses.  There are two divisions:
    [fdiv] is [/] between Python floats (the first cell), which raises on a
    zero divisor; [np_divide] is [/] on a NumPy scalar (everything that
    follows [np.sqrt] in the last cell), which never raises in machine
    arithmetic: a zero divisor gives an infinity or nan and a warning. *)
Class PyFloat (num : Type) := {
  of_lit : literal -> num;
  np_pi : num;
  fmul : num -> num -> num;
  fdiv : num -> num -> result num;
  np_divide : num -> num -> result num;
  fpow : num -> nat -> result num;
  np_sqrt : num -> result num
}.

(** ** The objects of the external framework

    Qiskit Metal and the Ansys renderers are not part of the repository; only
    what the notebook passes to them and reads back is modelled. *)

(** A component of the design: its class and the options its constructor
    was given.  The framework merges these over the defaults of the class; the
    defaults are not in the notebook and are not modelled, so [comp_options]
    holds the options passed, each with the value the component has for it. *)
Record component : Type := Component {
  comp_class : string;
  comp_options : gmap string string
}.

(** [designs.DesignPlanar()]: a flag, the components by name, and every
    constructor call made on the design so far, oldest first (the framework
    gives each new component the next id). *)
Record design_state : Type := Design {
  overwrite_enabled : bool;
  components : gmap string component;
  built : list (string * component)
}.

Definition DesignPlanar : design_state :=
  {| overwrite_enabled := false; components := ∅; built := [] |}.

(** [QComponent(design, name, options=...)]: the component is built and
    registered under its name.  A name already in use is replaced when the
    design allows overwriting; otherwise the constructor raises [ValueError]
    and the design is left as it is. *)
Definition add_component (d : design_state) (name : string) (c : component)
  : result design_state :=
  match components d !! name with
  | Some _ =>
      if overwrite_enabled d
      then inr {| overwrite_enabled := overwrite_enabled d;
                  components := <[name := c]> (components d);
                  built := built d ++ [(name, c)] |}
      else inl ValueError
  | None => inr {| overwrite_enabled := overwrite_enabled d;
                   components := <[name := c]> (components d);
                   built := built d ++ [(name, c)] |}
  end.

(** The eigenmode setup, with the fields the notebook displays. *)
Record eig_setup : Type := Setup {
  setup_name : string;
  reuse_selected_design : bool;
  reuse_setup : bool;
  min_freq_ghz : Z;
  n_modes : Z;
  max_delta_f : literal;
  max_passes : Z;
  min_passes : Z;
  min_converged : Z;
  pct_refinement : Z;
  basis_order : Z;
  vars : gmap string string
}.

Inductive solver : Set := Q3D | HFSS.

(** The arguments of [sim.run]; [port_list] is a keyword the Q3D call omits. *)
Record run_args : Type := RunArgs {
  run_components : list string;
  open_terminations : list string;
  port_list : option (list string)
}.

Inductive gui_call : Set := GuiOpen | GuiRebuild | GuiAutoscale.

(** ** The kernel and its monad *)

Section Notebook.

Context {num : Type} `{PyFloat num}.

(** [matrix] is whatever the capacitance extraction returns; the script only
    displays it. *)
Context {matrix : Type}.

(** What a run of the notebook does that can be observed from outside, in the
    order it happens. *)
Inductive event : Type :=
| Print (x : num)
| DisplayMatrix (m : matrix)
| DisplaySetup (s : eig_setup)
| Gui (c : gui_call)
| SimRun (s : solver) (d : design_state) (a : run_args) (setup : option eig_setup).

(** The part of the world the script does not control: what the Q3D solver
    answers, and the setup a fresh eigenmode analysis starts from. *)
Record backend : Type := Backend {
  q3d_extract : design_state -> run_args -> matrix;
  hfss_defaults : eig_setup
}.

(** The kernel: the numeric global variables, the objects bound to [design],
    [c1] (with its capacitance matrix once a run has filled it) and
    [eig_1qb] (its setup), and the trace so far. *)
Record kernel : Type := Kernel {
  globals : gmap string num;
  design : option design_state;
  c1 : option (option matrix);
  eig_1qb : option eig_setup;
  trace : list event
}.

Definition fresh_kernel : kernel :=
  {| globals := ∅; design := None; c1 := None; eig_1qb := None; trace := [] |}.

Definition script (A : Type) : Type := kernel -> result (A * kernel).

Definition ret {A} (a : A) : script A := fun k => inr (a, k).

Definition bind {A B} (c : script A) (f : A -> script B) : script B :=
  fun k => match c k with
           | inl err => inl err
           | inr (a, k') => f a k'
           end.

Definition raise {A} (err : py_error) : script A := fun _ => inl err.

Definition seq {A} (c1 : script unit) (c2 : script A) : script A :=
  bind c1 (fun _ => c2).

(** An expression reads the global variables and may raise. *)
Definition expr : Type := gmap string num -> result num.

Definition var (x : string) : expr :=
  fun g => match g !! x with
           | Some v => inr v
           | None => inl (NameError x)
           end.

Definition const (v : num) : expr := fun _ => inr v.

Definition lit (m k : Z) : expr := const (of_lit (Lit m k)).

Definition epi : expr := const np_pi.

Definition lift2 (op : num -> num -> result num) (a b : expr) : expr :=
  fun g => match a g with
           | inl err => inl err
           | inr x => match b g with
                      | inl err => inl err
                      | inr y => op x y
                      end
           end.

Definition lift1 (op : num -> result num) (a : expr) : expr :=
  fun g => match a g with
           | inl err => inl err
           | inr x => op x
           end.

Definition emul : expr -> expr -> expr := lift2 (fun x y => inr (fmul x y)).
Definition ediv : expr -> expr -> expr := lift2 fdiv.
Definition enpdiv : expr -> expr -> expr := lift2 np_divide.
Definition epow (a : expr) (n : nat) : expr := lift1 (fun x => fpow x n) a.
Definition esqrt : expr -> expr := lift1 np_sqrt.

(** [x = a] at the top level of a cell. *)
Definition assign (x : string) (a : expr) : script unit :=
  fun k => match a (globals k) with
           | inl err => inl err
           | inr v => inr (tt, {| globals := <[x := v]> (globals k);
                                  design := design k; c1 := c1 k;
                                  eig_1qb := eig_1qb k; trace := trace k |})
           end.

Definition emit (ev : event) : script unit :=
  fun k => inr (tt, {| globals := globals k; design := design k; c1 := c1 k;
                       eig_1qb := eig_1qb k; trace := trace k ++ [ev] |}).

(** [print(a)]. *)
Definition print (a : expr) : script unit :=
  fun k => match a (globals k) with
           | inl err => inl err
           | inr v => emit (Print v) k
           end.

Definition get_design : script design_state :=
  fun k => match design k with
           | Some d => inr (d, k)
           | None => inl (NameError "design")
           end.

Definition set_design (d : design_state) : script unit :=
  fun k => inr (tt, {| globals := globals k; design := Some d; c1 := c1 k;
                       eig_1qb := eig_1qb k; trace := trace k |}).

Definition get_c1 : script (option matrix) :=
  fun k => match c1 k with
           | Some m => inr (m, k)
           | None => inl (NameError "c1")
           end.

Definition set_c1 (m : option matrix) : script unit :=
  fun k => inr (tt, {| globals := globals k; design := design k; c1 := Some m;
                       eig_1qb := eig_1qb k; trace := trace k |}).

Definition get_eig_1qb : script eig_setup :=
  fun k => match eig_1qb k with
           | Some s => inr (s, k)
           | None => inl (NameError "eig_1qb")
           end.

Definition set_eig_1qb (s : eig_setup) : script unit :=
  fun k => inr (tt, {| globals := globals k; design := design k; c1 := c1 k;
                       eig_1qb := Some s; trace := trace k |}).

End Notebook.

Arguments event : clear implicits.
Arguments backend : clear implicits.
Arguments kernel : clear implicits.
Arguments script : clear implicits.
Arguments expr : clear implicits.

Declare Scope py_scope.
Delimit Scope py_scope with py.
Notation "x <- c ;; k" := (bind c (fun x => k))
  (at level 100, c at next level, right associativity) : py_scope.
Notation "c ;; k" := (seq c k)
  (at level 100, right associativity) : py_scope.
Notation "x ::= a" := (assign x a) (at level 90, no associativity) : py_scope.
Notation "$ x" := (var x) (at level 9, format "$ x") : py_scope.
Infix "*" := emul : py_scope.
Infix "/" := ediv : py_scope.
Infix "/." := enpdiv (at level 40, left associativity) : py_scope.
Infix "**" := epow (at level 30, right associativity) : py_scope.

(** ** The cells of the notebook *)

Section Cells.

Context {num : Type} `{PyFloat num} {matrix : Type}.
Variable world : backend matrix.

Local Open Scope py_scope.

Abbreviation script := (script num matrix).
Abbreviation expr := (expr num).

(** The transition frequency of an LC oscillator as the last cell writes it,
    [1/np.sqrt(Lj*Cq)/2/np.pi].  [np.sqrt] returns a NumPy scalar, so the three
    divisions are NumPy's ([/.]). *)
Definition transition_frequency (Lj Cq : expr) : expr :=
  lit 1 0 /. esqrt (Lj * Cq) /. lit 2 0 /. epi.

(** First code cell.  The four numbers it starts from are parameters; the
    notebook passes the literals below.
<<
    e = 1.60217657e-19 ; h = 6.62606957e-34
    alpha=250e6 ; f=5e9
    C=e**2/2/h/alpha
    L=1/C/(2*np.pi*f)**2
    print(C/1e-15)
    print(L/1e-9)
>> *)
Definition derivation_cell (e h alpha f : num) : script unit :=
  "e" ::= const e ;;
  "h" ::= const h ;;
  "alpha" ::= const alpha ;;
  "f" ::= const f ;;
  "C" ::= $"e" ** 2 / lit 2 0 / $"h" / $"alpha" ;;
  "L" ::= lit 1 0 / $"C" / (lit 2 0 * epi * $"f") ** 2 ;;
  print ($"C" / lit 1 (-15)) ;;
  print ($"L" / lit 1 (-9)).

(** [design = designs.DesignPlanar(); gui = MetalGUI(design)]. *)
Definition design_cell : script unit :=
  set_design DesignPlanar ;;
  emit (Gui GuiOpen).

Definition design_options : gmap string string :=
  {[ "cross_width" := "20um";
     "cross_length" := "145um";
     "cross_gap" := "20um";
     "hfss_inductance" := "13nH";
     "pos_x" := "2mm" ]}.

(** [design.overwrite_enabled = True]. *)
Definition enable_overwrite : script unit :=
  d <- get_design ;;
  set_design {| overwrite_enabled := true; components := components d;
                built := built d |}.

(** [TransmonCross(design, name, options=opts)]. *)
Definition TransmonCross (name : string) (opts : gmap string string) : script unit :=
  d <- get_design ;;
  match add_component d name (Component "TransmonCross" opts) with
  | inl err => raise err
  | inr d' => set_design d'
  end.

Definition qubit_cell : script unit :=
  enable_overwrite ;;
  TransmonCross "Q1" design_options ;;
  emit (Gui GuiRebuild) ;;
  emit (Gui GuiAutoscale).

(** [LOManalysis(design, "q3d")]: an analysis with no capacitance matrix yet. *)
Definition LOManalysis : script unit :=
  _ <- get_design ;;
  set_c1 None.

(** [c1.sim.run(...)]: the design as it is now goes to the Q3D solver, and the
    matrix it answers is kept in the analysis. *)
Definition q3d_run (a : run_args) : script unit :=
  _ <- get_c1 ;;
  d <- get_design ;;
  emit (SimRun Q3D d a None) ;;
  set_c1 (Some (q3d_extract world d a)).

(** The cell ends with the expression [c1.sim.capacitance_matrix], which the
    notebook displays (nothing is displayed for [None]). *)
Definition display_capacitance_matrix : script unit :=
  m <- get_c1 ;;
  match m with
  | Some m => emit (DisplayMatrix m)
  | None => ret tt
  end.

Definition q3d_cell : script unit :=
  LOManalysis ;;
  q3d_run {| run_components := ["Q1"]; open_terminations := []; port_list := None |} ;;
  display_capacitance_matrix.

(** [EPRanalysis(design, "hfss")]: an analysis with the default setup. *)
Definition EPRanalysis : script unit :=
  _ <- get_design ;;
  set_eig_1qb (hfss_defaults world).

(** [eig_1qb.sim.setup.<field> = value]. *)
Definition update_setup (f : eig_setup -> eig_setup) : script unit :=
  s <- get_eig_1qb ;;
  set_eig_1qb (f s).

Definition set_max_passes (v : Z) (s : eig_setup) : eig_setup :=
  {| setup_name := setup_name s; reuse_selected_design := reuse_selected_design s;
     reuse_setup := reuse_setup s; min_freq_ghz := min_freq_ghz s;
     n_modes := n_modes s; max_delta_f := max_delta_f s; max_passes := v;
     min_passes := min_passes s; min_converged := min_converged s;
     pct_refinement := pct_refinement s; basis_order := basis_order s;
     vars := vars s |}.

Definition set_max_delta_f (v : literal) (s : eig_setup) : eig_setup :=
  {| setup_name := setup_name s; reuse_selected_design := reuse_selected_design s;
     reuse_setup := reuse_setup s; min_freq_ghz := min_freq_ghz s;
     n_modes := n_modes s; max_delta_f := v; max_passes := max_passes s;
     min_passes := min_passes s; min_converged := min_converged s;
     pct_refinement := pct_refinement s; basis_order := basis_order s;
     vars := vars s |}.

Definition set_min_freq_ghz (v : Z) (s : eig_setup) : eig_setup :=
  {| setup_name := setup_name s; reuse_selected_design := reuse_selected_design s;
     reuse_setup := reuse_setup s; min_freq_ghz := v;
     n_modes := n_modes s; max_delta_f := max_delta_f s; max_passes := max_passes s;
     min_passes := min_passes s; min_converged := min_converged s;
     pct_refinement := pct_refinement s; basis_order := basis_order s;
     vars := vars s |}.

Definition set_n_modes (v : Z) (s : eig_setup) : eig_setup :=
  {| setup_name := setup_name s; reuse_selected_design := reuse_selected_design s;
     reuse_setup := reuse_setup s; min_freq_ghz := min_freq_ghz s;
     n_modes := v; max_delta_f := max_delta_f s; max_passes := max_passes s;
     min_passes := min_passes s; min_converged := min_converged s;
     pct_refinement := pct_refinement s; basis_order := basis_order s;
     vars := vars s |}.

Definition set_vars (v : gmap string string) (s : eig_setup) : eig_setup :=
  {| setup_name := setup_name s; reuse_selected_design := reuse_selected_design s;
     reuse_setup := reuse_setup s; min_freq_ghz := min_freq_ghz s;
     n_modes := n_modes s; max_delta_f := max_delta_f s; max_passes := max_passes s;
     min_passes := min_passes s; min_converged := min_converged s;
     pct_refinement := pct_refinement s; basis_order := basis_order s;
     vars := v |}.

Definition setup_cell : script unit :=
  EPRanalysis ;;
  update_setup (set_max_passes 12) ;;
  update_setup (set_max_delta_f (Lit 1 (-1))) ;;
  update_setup (set_min_freq_ghz 1) ;;
  update_setup (set_n_modes 1) ;;
  update_setup (set_vars {[ "Lj" := "13 nH"; "Cj" := "0 fF" ]}) ;;
  s <- get_eig_1qb ;;
  emit (DisplaySetup s).

(** [eig_1qb.sim.run(components=['Q1'], open_terminations=[], port_list=[])]:
    the design and the setup as they are now go to the eigenmode solver. *)
Definition hfss_run (a : run_args) : script unit :=
  s <- get_eig_1qb ;;
  d <- get_design ;;
  emit (SimRun HFSS d a (Some s)).

Definition hfss_cell : script unit :=
  hfss_run {| run_components := ["Q1"]; open_terminations := [];
              port_list := Some [] |}.

(** Last code cell, with its two literals as parameters ([f] is a NumPy
    scalar, so [f/1e9] is NumPy's division too).
<<
    f=1/np.sqrt(13e-9*78e-15)/2/np.pi
    print(f/1e9)
>> *)
Definition check_cell (Lj Cq : num) : script unit :=
  "f" ::= transition_frequency (const Lj) (const Cq) ;;
  print ($"f" /. lit 1 9).

(** The cells between the derivation and the last one, in the order of the
    file: they open the design, build the qubit and drive the two solvers. *)
Definition simulation_cells : script unit :=
  design_cell ;;
  qubit_cell ;;
  q3d_cell ;;
  setup_cell ;;
  hfss_cell.

(** Everything after the derivation. *)
Definition later_cells (Lj Cq : num) : script unit :=
  simulation_cells ;;
  check_cell Lj Cq.

(** The notebook on arbitrary numeric inputs, and as it is written. *)
Definition notebook_on (e h alpha f Lj Cq : num) : script unit :=
  derivation_cell e h alpha f ;;
  later_cells Lj Cq.

Definition e_charge : num := of_lit (Lit 160217657 (-27)).
Definition h_planck : num := of_lit (Lit 662606957 (-42)).
Definition alpha_target : num := of_lit (Lit 250 6).
Definition f_target : num := of_lit (Lit 5 9).
Definition Lj_literal : num := of_lit (Lit 13 (-9)).
Definition Cq_literal : num := of_lit (Lit 78 (-15)).

Definition notebook : script unit :=
  notebook_on e_charge h_planck alpha_target f_target Lj_literal Cq_literal.

(** The kernel with its numeric globals replaced. *)
Definition with_globals (g : gmap string num) (k : kernel num matrix)
  : kernel num matrix :=
  {| globals := g; design := design k; c1 := c1 k; eig_1qb := eig_1qb k;
     trace := trace k |}.

End Cells.

(** The pair [(C, L)] the derivation cell leaves in a fresh kernel. *)
Definition derived_values {num : Type} `{PyFloat num} (e h alpha f : num)
  : result (num * num) :=
  match derivation_cell (matrix := Empty_set) e h alpha f fresh_kernel with
  | inl err => inl err
  | inr (_, k) =>
      match globals k !! "C", globals k !! "L" with
      | Some c, Some l => inr (c, l)
      | None, _ => inl (NameError "C")
      | _, None => inl (NameError "L")
      end
  end.

(** The round trip: the frequency formula of the last cell evaluated on the
    variables [L] and [C] the derivation cell has just set. *)
Definition round_trip {num : Type} `{PyFloat num} (e h alpha f : num) : result num :=
  match derivation_cell (matrix := Empty_set) e h alpha f fresh_kernel with
  | inl err => inl err
  | inr (_, k) => transition_frequency (var "L") (var "C") (globals k)
  end.

(** ** Exact arithmetic: floats read as real numbers *)

Module Exact.

Local Open Scope R_scope.

Definition lit_R (l : literal) : R :=
  match exponent10 l with
  | Z0 => IZR (mantissa l)
  | Zpos p => IZR (mantissa l) * IZR (Z.pow_pos 10 p)
  | Zneg p => IZR (mantissa l) / IZR (Z.pow_pos 10 p)
  end.

(** There is no infinity and no nan among the reals: a zero divisor is a
    fault for both divisions, and so is the square root of a negative
    number. *)
Definition div_R (x y : R) : result R :=
  if Req_dec_T y 0 then inl ZeroDivisionError else inr (x / y).

Definition sqrt_R (x : R) : result R :=
  if Rlt_dec x 0 then inl InvalidValue else inr (R_sqrt.sqrt x).

#[export] Instance real_float : PyFloat R := {|
  of_lit := lit_R;
  np_pi := PI;
  fmul := Rmult;
  fdiv := div_R;
  np_divide := div_R;
  fpow := fun x n => inr (x ^ n);
  np_sqrt := sqrt_R
|}.

End Exact.

(** ** Machine arithmetic: IEEE binary64 *)

Module Binary64.

(** A decimal literal is read as the nearest double: the literal is an exact
    quotient (or product) of two integers, rounded once. *)
Definition lit_b64 (l : literal) : float :=
  match mantissa l with
  | Z0 => 0%float
  | Zpos m =>
      match exponent10 l with
      | Zneg p => SF2Prim (SFdiv prec emax (S754_finite false m 0)
                                           (S754_finite false (Pos.pow 10 p) 0))
      | k => SF2Prim (binary_normalize prec emax (Zpos m * 10 ^ k) 0 false)
      end
  | Zneg m =>
      match exponent10 l with
      | Zneg p => SF2Prim (SFdiv prec emax (S754_finite true m 0)
                                           (S754_finite false (Pos.pow 10 p) 0))
      | k => SF2Prim (binary_normalize prec emax (Zneg m * 10 ^ k) 0 false)
      end
  end.

(** Python's float division: a zero divisor (of either sign) raises. *)
Definition div_b64 (x y : float) : result float :=
  if PrimFloat.eqb y 0 then inl ZeroDivisionError else inr (x / y)%float.

Definition is_finite (x : float) : bool :=
  negb (PrimFloat.is_nan x || PrimFloat.is_infinity x).

Fixpoint product (x : float) (n : nat) : float :=
  match n with
  | O => 1%float
  | S O => x
  | S n' => (x * product x n')%float
  end.

(** [x ** n] for an integer [n >= 0].  CPython calls the C library's [pow];
    it is taken here as the correctly rounded product, which the library's
    result can miss by one unit in the last place for some bases.  The two
    agree on every base squared in the theorems below (the notebook's [e] and
    [2*pi*f] at the frequencies used).  A finite base whose power overflows
    raises. *)
Definition pow_b64 (x : float) (n : nat) : result float :=
  let r := product x n in
  if is_finite x && PrimFloat.is_infinity r then inl OverflowError else inr r.

(** [np.pi] is the double nearest to pi; [np.sqrt] and NumPy's division never
    raise (they return nan or an infinity). *)
#[export] Instance binary64 : PyFloat float := {|
  of_lit := lit_b64;
  np_pi := 0x1.921fb54442d18p+1%float;
  fmul := PrimFloat.mul;
  fdiv := div_b64;
  np_divide := fun x y => inr (x / y)%float;
  fpow := pow_b64;
  np_sqrt := fun x => inr (PrimFloat.sqrt x)
|}.

End Binary64.

(** ** Observations on a run *)

Section Observations.

Context {num matrix : Type}.

(** What [print] wrote, in order. *)
Definition printed (t : list (event num matrix)) : list num :=
  omap (fun ev => match ev with Print x => Some x | _ => None end) t.

(** The calls that make the simulation backend run, in order. *)
Definition sim_runs (t : list (event num matrix)) : list (solver * run_args) :=
  omap (fun ev => match ev with SimRun s _ a _ => Some (s, a) | _ => None end) t.

Definition is_sim_run (ev : event num matrix) : bool :=
  match ev with SimRun _ _ _ _ => true | _ => false end.

(** No [print] happens before a simulation run. *)
Fixpoint prints_after_runs (t : list (event num matrix)) : bool :=
  match t with
  | [] => true
  | Print _ :: t' => negb (existsb is_sim_run t') && prints_after_runs t'
  | _ :: t' => prints_after_runs t'
  end.

(** The numeric results of a run: what was printed and the values of [C], [L]
    and [f] at the end. *)
Definition numeric_outcome {A} (r : result (A * kernel num matrix))
  : result (list num * option num * option num * option num) :=
  match r with
  | inl err => inl err
  | inr (_, k) => inr (printed (trace k), globals k !! "C", globals k !! "L",
                       globals k !! "f")
  end.

End Observations.

(** ** The session recorded in the notebook

    The capacitance matrix the Q3D run returned (in fF, rows and columns
    [cross_Q1], [ground_main_plane]) and the eigenmode setup, both as the
    notebook displays them.  The five fields of the setup the notebook assigns
    are overwritten before any use; the others are the framework's. *)
Definition recorded_matrix : list (list literal) :=
  [ [Lit 7796968 (-5); Lit (-7677556) (-5)];
    [Lit (-7677556) (-5); Lit 12201138 (-5)] ].

Definition recorded_world : backend (list (list literal)) :=
  {| q3d_extract := fun _ _ => recorded_matrix;
     hfss_defaults :=
       {| setup_name := "Setup"; reuse_selected_design := true; reuse_setup := true;
          min_freq_ghz := 1; n_modes := 1; max_delta_f := Lit 1 (-1);
          max_passes := 12; min_passes := 1; min_converged := 1;
          pct_refinement := 30; basis_order := 1;
          vars := {[ "Lj" := "13 nH"; "Cj" := "0 fF" ]} |} |}.

(** ** Quantities written as strings

    Qiskit Metal and Ansys take lengths and inductances as a number followed
    by a unit, with or without a space in between: ['13nH'], ['13 nH']. *)

Definition is_digit (c : ascii) : bool :=
  ((48 <=? Z.of_nat (nat_of_ascii c)) && (Z.of_nat (nat_of_ascii c) <=? 57))%Z.

Fixpoint read_digits (s : string) (acc : Z) : Z * string :=
  match s with
  | String c s' =>
      if is_digit c then read_digits s' (10 * acc + (Z.of_nat (nat_of_ascii c) - 48))
      else (acc, s)
  | EmptyString => (acc, s)
  end.

Fixpoint skip_spaces (s : string) : string :=
  match s with
  | String " " s' => skip_spaces s'
  | _ => s
  end.

Record quantity : Set := Quantity { magnitude : Z; unit_name : string }.

Definition parse_quantity (s : string) : option quantity :=
  match s with
  | String c _ =>
      if is_digit c
      then let (n, rest) := read_digits s 0 in Some (Quantity n (skip_spaces rest))
      else None
  | EmptyString => None
  end.

(** The quantity in SI units, as a decimal literal. *)
Definition si_literal (q : quantity) : option literal :=
  if String.eqb (unit_name q) "nH" then Some (Lit (magnitude q) (-9))
  else if String.eqb (unit_name q) "fF" then Some (Lit (magnitude q) (-15))
  else if String.eqb (unit_name q) "um" then Some (Lit (magnitude q) (-6))
  else if String.eqb (unit_name q) "mm" then Some (Lit (magnitude q) (-3))
  else None.

Definition quantity_literal (s : string) : option literal :=
  match parse_quantity s with
  | Some q => si_literal q
  | None => None
  end.

(** ** Rational enclosures of pi

    Machin's formula [pi/4 = 2 atan(1/3) + atan(1/7)] as an alternating
    series of rationals; consecutive partial sums enclose [pi/4]. *)

Fixpoint powQ (x : Q) (n : nat) : Q :=
  match n with
  | O => 1
  | S n' => x * powQ x n'
  end.

(** [x^(2n+1) / (2n+1)], the [n]-th term of the series of [atan x]. *)
Definition atan_termQ (x : Q) (n : nat) : Q :=
  powQ x (2 * n + 1) / inject_Z (Z.of_nat (2 * n + 1)).

Definition machin_termQ (n : nat) : Q :=
  2 * atan_termQ (1 # 3) n + atan_termQ (1 # 7) n.

Fixpoint alt_sumQ (n : nat) : Q :=
  match n with
  | O => machin_termQ O
  | S n' => alt_sumQ n' + powQ (-1) n * machin_termQ n
  end.

Definition pi_below (N : nat) : Q := 4 * alt_sumQ (S (2 * N)).
Definition pi_above (N : nat) : Q := 4 * alt_sumQ (2 * N).

(** [x] rounds to the integer [n]. *)
Definition rounds_to (x : R) (n : Z) : Prop :=
  (IZR n - 1 / 2 < x < IZR n + 1 / 2)%R.

(** * Properties *)

(** ** Running scripts, for any arithmetic *)

Section Stepping.

Context {num : Type} `{PyFloat num} {matrix : Type}.
Implicit Types (g : gmap string num) (a b : expr num) (k : kernel num matrix).

Lemma run_seq {A} (c : script num matrix unit) (c' : script num matrix A) k k' :
  c k = inr (tt, k') -> seq c c' k = c' k'.
Proof. unfold seq, bind. now intros ->. Qed.

Lemma seq_assoc {A} (c c' : script num matrix unit) (c'' : script num matrix A) k :
  seq (seq c c') c'' k = seq c (seq c' c'') k.
Proof. unfold seq, bind. destruct (c k) as [err|[[] k']]; reflexivity. Qed.

Lemma run_assign x a k v :
  a (globals k) = inr v ->
  assign x a k = inr (tt, with_globals (<[x := v]> (globals k)) k).
Proof. unfold assign. now intros ->. Qed.

Lemma run_print a k v :
  a (globals k) = inr v ->
  print a k = inr (tt, {| globals := globals k; design := design k; c1 := c1 k;
                          eig_1qb := eig_1qb k; trace := trace k ++ [Print v] |}).
Proof. unfold print. now intros ->. Qed.

Lemma eval_var g x v : g !! x = Some v -> var x g = inr v.
Proof. unfold var. now intros ->. Qed.

Lemma eval_const g v : const v g = inr v.
Proof. reflexivity. Qed.

Lemma eval_mul a b g x y :
  a g = inr x -> b g = inr y -> emul a b g = inr (fmul x y).
Proof. unfold emul, lift2. now intros -> ->. Qed.

(** The cells between the derivation and the last one never fail, leave the
    numeric globals alone and add seven events. *)
Lemma simulation_cells_run (world : backend matrix) k :
  let d := {| overwrite_enabled := true;
              components := {[ "Q1" := Component "TransmonCross" design_options ]};
              built := [("Q1", Component "TransmonCross" design_options)] |} in
  let s := set_vars {[ "Lj" := "13 nH"; "Cj" := "0 fF" ]}
             (set_n_modes 1 (set_min_freq_ghz 1 (set_max_delta_f (Lit 1 (-1))
                (set_max_passes 12 (hfss_defaults world))))) in
  let a1 := {| run_components := ["Q1"]; open_terminations := []; port_list := None |} in
  let a2 := {| run_components := ["Q1"]; open_terminations := []; port_list := Some [] |} in
  simulation_cells world k =
  inr (tt, {| globals := globals k;
              design := Some d;
              c1 := Some (Some (q3d_extract world d a1));
              eig_1qb := Some s;
              trace := trace k ++
                [Gui GuiOpen; Gui GuiRebuild; Gui GuiAutoscale;
                 SimRun Q3D d a1 None; DisplayMatrix (q3d_extract world d a1);
                 DisplaySetup s; SimRun HFSS d a2 (Some s)] |}).
Proof.
  intros d s a1 a2.
  unfold simulation_cells, design_cell, qubit_cell, q3d_cell, setup_cell, hfss_cell,
    enable_overwrite, TransmonCross, LOManalysis, q3d_run, display_capacitance_matrix,
    EPRanalysis, update_setup, hfss_run, seq, bind, emit, ret, raise,
    get_design, set_design, get_c1, set_c1, get_eig_1qb, set_eig_1qb.
  cbn [globals design c1 eig_1qb trace components overwrite_enabled built].
  unfold add_component.
  cbn [globals design c1 eig_1qb trace components overwrite_enabled built DesignPlanar].
  rewrite lookup_empty.
  cbn [globals design c1 eig_1qb trace components overwrite_enabled built app].
  rewrite <- !app_assoc.
  reflexivity.
Qed.

(** Two runs in step: an assignment whose right-hand side has the same value
    in both kernels, followed by continuations that agree whatever that value
    is. *)
Lemma outcome_seq_assign {A} x a (c c' : script num matrix A) k1 k2 :
  a (globals k1) = a (globals k2) ->
  (forall v, numeric_outcome (c (with_globals (<[x := v]> (globals k1)) k1)) =
             numeric_outcome (c' (with_globals (<[x := v]> (globals k2)) k2))) ->
  numeric_outcome (seq (assign x a) c k1) = numeric_outcome (seq (assign x a) c' k2).
Proof.
  intros Ha Hc. unfold seq, bind, assign. rewrite Ha.
  destruct (a (globals k2)) as [err|v]; [reflexivity | apply Hc].
Qed.

Lemma outcome_seq_print {A} a (c c' : script num matrix A) k1 k2 :
  a (globals k1) = a (globals k2) ->
  (forall v, numeric_outcome
               (c {| globals := globals k1; design := design k1; c1 := c1 k1;
                     eig_1qb := eig_1qb k1; trace := trace k1 ++ [Print v] |}) =
             numeric_outcome
               (c' {| globals := globals k2; design := design k2; c1 := c1 k2;
                      eig_1qb := eig_1qb k2; trace := trace k2 ++ [Print v] |})) ->
  numeric_outcome (seq (print a) c k1) = numeric_outcome (seq (print a) c' k2).
Proof.
  intros Ha Hc. unfold seq, bind, print, emit. rewrite Ha.
  destruct (a (globals k2)) as [err|v]; [reflexivity | apply Hc].
Qed.

Lemma outcome_print a k1 k2 :
  a (globals k1) = a (globals k2) ->
  printed (trace k1) = printed (trace k2) ->
  globals k1 !! "C" = globals k2 !! "C" ->
  globals k1 !! "L" = globals k2 !! "L" ->
  globals k1 !! "f" = globals k2 !! "f" ->
  numeric_outcome (print a k1) = numeric_outcome (print a k2).
Proof.
  intros Ha Ht HC HL Hf. unfold print, emit. rewrite Ha.
  destruct (a (globals k2)) as [err|v]; [reflexivity|].
  cbn [numeric_outcome globals trace]. unfold printed in *.
  rewrite !omap_app, Ht, HC, HL, Hf. reflexivity.
Qed.

End Stepping.

(** ** Exact arithmetic *)

Import Exact.
Local Open Scope R_scope.

Section ExactEval.

Implicit Types (g : gmap string R) (a b : expr R).

Lemma eval_pi g : epi g = inr PI.
Proof. reflexivity. Qed.

Lemma eval_lit g m z : lit m z g = inr (lit_R (Lit m z)).
Proof. reflexivity. Qed.

Lemma eval_mul_R a b g x y : a g = inr x -> b g = inr y -> emul a b g = inr (x * y).
Proof. exact (eval_mul a b g x y). Qed.

Lemma eval_div a b g x y :
  a g = inr x -> b g = inr y -> y <> 0 -> ediv a b g = inr (x / y).
Proof.
  unfold ediv, lift2. intros -> -> Hy. cbn. unfold div_R.
  destruct (Req_dec_T y 0); [contradiction | reflexivity].
Qed.

Lemma eval_npdiv a b g x y :
  a g = inr x -> b g = inr y -> y <> 0 -> enpdiv a b g = inr (x / y).
Proof.
  unfold enpdiv, lift2. intros -> -> Hy. cbn. unfold div_R.
  destruct (Req_dec_T y 0); [contradiction | reflexivity].
Qed.

Lemma eval_pow a n g x : a g = inr x -> epow a n g = inr (x ^ n).
Proof. unfold epow, lift1. now intros ->. Qed.

Lemma eval_sqrt a g x :
  a g = inr x -> 0 <= x -> esqrt a g = inr (R_sqrt.sqrt x).
Proof.
  unfold esqrt, lift1. intros -> Hx. cbn. unfold sqrt_R.
  destruct (Rlt_dec x 0); [lra | reflexivity].
Qed.

Lemma lit_R_neq0 m z : (m <> 0)%Z -> lit_R (Lit m z) <> 0.
Proof.
  intros Hm. assert (IZR m <> 0) by now apply not_0_IZR.
  assert (forall p, IZR (Z.pow_pos 10 p) <> 0).
  { intros p. apply not_0_IZR. rewrite Z.pow_pos_fold. apply Z.pow_nonzero; lia. }
  destruct z as [|p|p]; unfold lit_R, Rdiv; cbn [mantissa exponent10];
    repeat apply Rmult_integral_contrapositive_currified;
    try apply Rinv_neq_0_compat; auto.
Qed.

Lemma derived_C_neq0 e h alpha :
  e <> 0 -> h <> 0 -> alpha <> 0 -> e ^ 2 / 2 / h / alpha <> 0.
Proof.
  intros He Hh Ha. unfold Rdiv.
  repeat apply Rmult_integral_contrapositive_currified;
    try apply Rinv_neq_0_compat; try apply pow_nonzero; auto; lra.
Qed.

Lemma two_pi_f_neq0 f : f <> 0 -> 2 * PI * f <> 0.
Proof.
  intros Hf.
  apply Rmult_integral_contrapositive_currified; [|exact Hf].
  apply Rmult_integral_contrapositive_currified; [lra | exact PI_neq0].
Qed.

End ExactEval.

Ltac same_value :=
  cbn [globals with_globals];
  unfold ediv, enpdiv, emul, epow, esqrt, epi, lit, const, lift2, lift1, var;
  simplify_map_eq; reflexivity.

Ltac eval_expr :=
  repeat first
    [ apply eval_const | apply eval_pi | apply eval_lit
    | eapply eval_var; simplify_map_eq; reflexivity
    | eapply eval_mul_R | eapply eval_pow | eapply eval_div | eapply eval_npdiv
    | eapply eval_sqrt ].

Ltac kernel_simpl := cbn [globals design c1 eig_1qb trace with_globals].

(** The derivation cell on nonzero inputs: the kernel it ends in. *)
Lemma derivation_cell_exact {matrix} (e h alpha f : R) (k : kernel R matrix) :
  e <> 0 -> h <> 0 -> alpha <> 0 -> f <> 0 ->
  let c := e ^ 2 / 2 / h / alpha in
  let l := 1 / c / (2 * PI * f) ^ 2 in
  derivation_cell e h alpha f k =
  inr (tt, {| globals := <["L" := l]> (<["C" := c]> (<["f" := f]>
                         (<["alpha" := alpha]> (<["h" := h]> (<["e" := e]> (globals k))))));
              design := design k; c1 := c1 k; eig_1qb := eig_1qb k;
              trace := trace k ++ [Print (c / 1e-15); Print (l / 1e-9)] |}).
Proof.
  intros He Hh Ha Hf c l.
  assert (Hc : c <> 0) by now apply derived_C_neq0.
  assert (Hpf : (2 * PI * f) ^ 2 <> 0) by now apply pow_nonzero, two_pi_f_neq0.
  unfold derivation_cell.
  do 4 (erewrite run_seq; [| apply run_assign; kernel_simpl; eval_expr ]; kernel_simpl).
  erewrite run_seq; [| apply run_assign; kernel_simpl; eval_expr; auto; cbn; lra ];
    kernel_simpl.
  erewrite run_seq; [| apply run_assign; kernel_simpl; eval_expr; auto ]; kernel_simpl.
  erewrite run_seq; [| apply run_print; kernel_simpl; eval_expr; apply lit_R_neq0; lia ];
    kernel_simpl.
  erewrite run_print; [| kernel_simpl; eval_expr; apply lit_R_neq0; lia ]; kernel_simpl.
  rewrite <- app_assoc. reflexivity.
Qed.

(** The frequency formula on values whose product is positive. *)
Lemma transition_frequency_exact (a b : expr R) (g : gmap string R) x y :
  a g = inr x -> b g = inr y -> 0 < x * y ->
  transition_frequency a b g = inr (1 / R_sqrt.sqrt (x * y) / 2 / PI).
Proof.
  intros Ha Hb Hxy. unfold transition_frequency.
  assert (0 < R_sqrt.sqrt (x * y)) by now apply sqrt_lt_R0.
  eval_expr; eauto using PI_neq0; try (cbn; lra).
Qed.

Lemma check_cell_exact {matrix} (Lj Cq : R) (k : kernel R matrix) :
  0 < Lj * Cq ->
  let f := 1 / R_sqrt.sqrt (Lj * Cq) / 2 / PI in
  check_cell Lj Cq k =
  inr (tt, {| globals := <["f" := f]> (globals k); design := design k; c1 := c1 k;
              eig_1qb := eig_1qb k; trace := trace k ++ [Print (f / 1e9)] |}).
Proof.
  intros Hpos f. unfold check_cell.
  erewrite run_seq;
    [| apply run_assign; apply transition_frequency_exact; [apply eval_const .. | exact Hpos] ].
  kernel_simpl.
  erewrite run_print; [| kernel_simpl; eval_expr; apply lit_R_neq0; lia ].
  reflexivity.
Qed.


Lemma derived_values_exact (e h alpha f : R) :
  e <> 0 -> h <> 0 -> alpha <> 0 -> f <> 0 ->
  derived_values e h alpha f =
  inr (e ^ 2 / 2 / h / alpha, 1 / (e ^ 2 / 2 / h / alpha) / (2 * PI * f) ^ 2).
Proof.
  intros He Hh Ha Hf. unfold derived_values.
  rewrite derivation_cell_exact by assumption. kernel_simpl.
  rewrite lookup_insert_ne, !lookup_insert_eq by discriminate. reflexivity.
Qed.

(** [L * C] is [1 / (2 pi f)^2], whatever [e], [h] and [alpha] are. *)
Lemma LC_product (c f : R) :
  c <> 0 -> f <> 0 -> 1 / c / (2 * PI * f) ^ 2 * c = (1 / (2 * PI * f)) ^ 2.
Proof. intros Hc Hf. pose proof PI_neq0. field. auto. Qed.

Lemma round_trip_exact (e h alpha f : R) :
  e <> 0 -> 0 < h -> 0 < alpha -> 0 < f -> round_trip e h alpha f = inr f.
Proof.
  intros He Hh Ha Hf. unfold round_trip.
  rewrite derivation_cell_exact by lra. kernel_simpl.
  set (c := e ^ 2 / 2 / h / alpha). set (l := 1 / c / (2 * PI * f) ^ 2).
  assert (Hc : c <> 0) by (apply derived_C_neq0; lra).
  assert (Hlc : l * c = (1 / (2 * PI * f)) ^ 2) by (apply LC_product; lra).
  assert (Hpf : 0 < 2 * PI * f).
  { pose proof PI_RGT_0. apply Rmult_lt_0_compat; lra. }
  assert (Hinv : 0 < 1 / (2 * PI * f)) by (apply Rdiv_lt_0_compat; lra).
  erewrite transition_frequency_exact;
    [| eapply eval_var; simplify_map_eq; reflexivity ..
     | fold c l; rewrite Hlc; apply pow_lt; exact Hinv ].
  fold c l. rewrite Hlc, <- Rsqr_pow2, sqrt_Rsqr by lra.
  f_equal. pose proof PI_neq0. field. split; lra.
Qed.

(** ** Enclosing pi *)

Lemma Q2R_powQ x n : Q2R (powQ x n) = Q2R x ^ n.
Proof.
  induction n as [|n IH]; cbn [powQ pow].
  - unfold Q2R; cbn; lra.
  - now rewrite Q2R_mult, IH.
Qed.

Lemma Q2R_inject_nat n : Q2R (inject_Z (Z.of_nat n)) = INR n.
Proof. unfold Q2R; cbn. rewrite <- INR_IZR_INZ. lra. Qed.

Lemma Q2R_atan_termQ x n : Q2R (atan_termQ x n) = Ratan_seq (Q2R x) n.
Proof.
  unfold atan_termQ, Ratan_seq.
  rewrite Q2R_div, Q2R_powQ, Q2R_inject_nat; [reflexivity|].
  unfold Qeq; cbn. lia.
Qed.

Lemma Q2R_machin_termQ n : Q2R (machin_termQ n) = PI_2_3_7_tg n.
Proof.
  unfold machin_termQ, PI_2_3_7_tg.
  rewrite Q2R_plus, Q2R_mult, !Q2R_atan_termQ.
  replace (Q2R (1 # 3)) with (/ 3) by (unfold Q2R; cbn; lra).
  replace (Q2R (1 # 7)) with (/ 7) by (unfold Q2R; cbn; lra).
  replace (Q2R 2) with 2 by (unfold Q2R; cbn; lra).
  reflexivity.
Qed.

Lemma Q2R_alt_sumQ n : Q2R (alt_sumQ n) = sum_f_R0 (tg_alt PI_2_3_7_tg) n.
Proof.
  induction n as [|n IH].
  - cbn [alt_sumQ sum_f_R0]. rewrite Q2R_machin_termQ. unfold tg_alt. cbn [pow]. lra.
  - cbn [alt_sumQ sum_f_R0]. rewrite Q2R_plus, Q2R_mult, Q2R_powQ, Q2R_machin_termQ, IH.
    unfold tg_alt. replace (Q2R (-1)) with (-1) by (unfold Q2R; cbn; lra). reflexivity.
Qed.

(** Consecutive partial sums of Machin's series enclose pi. *)
Lemma PI_between N : Q2R (pi_below N) <= PI <= Q2R (pi_above N).
Proof.
  unfold pi_below, pi_above. rewrite !Q2R_mult, !Q2R_alt_sumQ.
  replace (Q2R 4) with 4 by (unfold Q2R; cbn; lra).
  pose proof (PI_2_3_7_ineq N) as [Hlo Hhi]. lra.
Qed.

Lemma PI_enclosure : 3.1415926535897932 < PI < 3.1415926535897933.
Proof.
  pose proof (PI_between 8) as [Hlo Hhi].
  assert (Ha : (31415926535897932 # 10000000000000000 < pi_below 8)%Q) by (vm_compute; reflexivity).
  assert (Hb : (pi_above 8 < 31415926535897933 # 10000000000000000)%Q) by (vm_compute; reflexivity).
  apply Qlt_Rlt in Ha. apply Qlt_Rlt in Hb.
  unfold Q2R in Ha at 1. unfold Q2R in Hb at 2. cbn in Ha, Hb. 
  split; lra.
Qed.

(** ** The notebook's own numbers *)

Ltac lit_simpl := cbn [of_lit real_float lit_R mantissa exponent10].

Lemma e_charge_value : e_charge = 1.60217657e-19.
Proof. unfold e_charge. lit_simpl. lra. Qed.

Lemma h_planck_value : h_planck = 6.62606957e-34.
Proof. unfold h_planck. lit_simpl. lra. Qed.

Lemma alpha_target_value : alpha_target = 250e6.
Proof. unfold alpha_target. lit_simpl. lra. Qed.

Lemma f_target_value : f_target = 5e9.
Proof. unfold f_target. lit_simpl. lra. Qed.

Lemma Lj_literal_value : Lj_literal = 13e-9.
Proof. unfold Lj_literal. lit_simpl. lra. Qed.

Lemma Cq_literal_value : Cq_literal = 78e-15.
Proof. unfold Cq_literal. lit_simpl. lra. Qed.

Lemma e_charge_pos : 0 < e_charge.
Proof. rewrite e_charge_value. lra. Qed.

Lemma h_planck_pos : 0 < h_planck.
Proof. rewrite h_planck_value. lra. Qed.

Lemma alpha_target_pos : 0 < alpha_target.
Proof. rewrite alpha_target_value. lra. Qed.

Lemma f_target_pos : 0 < f_target.
Proof. rewrite f_target_value. lra. Qed.

Lemma literals_product_pos : 0 < Lj_literal * Cq_literal.
Proof. rewrite Lj_literal_value, Cq_literal_value. lra. Qed.

(** The whole notebook in exact arithmetic, from a fresh kernel. *)
Lemma notebook_exact {matrix} (world : backend matrix) :
  let c := e_charge ^ 2 / 2 / h_planck / alpha_target in
  let l := 1 / c / (2 * PI * f_target) ^ 2 in
  let f := 1 / R_sqrt.sqrt (Lj_literal * Cq_literal) / 2 / PI in
  let d := {| overwrite_enabled := true;
              components := {[ "Q1" := Component "TransmonCross" design_options ]};
              built := [("Q1", Component "TransmonCross" design_options)] |} in
  let s := set_vars {[ "Lj" := "13 nH"; "Cj" := "0 fF" ]}
             (set_n_modes 1 (set_min_freq_ghz 1 (set_max_delta_f (Lit 1 (-1))
                (set_max_passes 12 (hfss_defaults world))))) in
  let a1 := {| run_components := ["Q1"]; open_terminations := []; port_list := None |} in
  let a2 := {| run_components := ["Q1"]; open_terminations := []; port_list := Some [] |} in
  notebook world fresh_kernel =
  inr (tt, {| globals := <["f" := f]> (<["L" := l]> (<["C" := c]> (<["f" := f_target]>
                 (<["alpha" := alpha_target]> (<["h" := h_planck]>
                 (<["e" := e_charge]> ∅))))));
              design := Some d;
              c1 := Some (Some (q3d_extract world d a1));
              eig_1qb := Some s;
              trace := [Print (c / 1e-15); Print (l / 1e-9);
                        Gui GuiOpen; Gui GuiRebuild; Gui GuiAutoscale;
                        SimRun Q3D d a1 None; DisplayMatrix (q3d_extract world d a1);
                        DisplaySetup s; SimRun HFSS d a2 (Some s);
                        Print (f / 1e9)] |}).
Proof.
  intros c l f d s a1 a2.
  pose proof e_charge_pos. pose proof h_planck_pos.
  pose proof alpha_target_pos. pose proof f_target_pos.
  unfold notebook, notebook_on, later_cells.
  erewrite run_seq; [| apply derivation_cell_exact; lra ].
  erewrite run_seq; [| apply simulation_cells_run ].
  rewrite check_cell_exact by exact literals_product_pos.
  kernel_simpl. reflexivity.
Qed.

(** The two numbers the derivation cell prints, in exact arithmetic. *)
Lemma printed_C_exact :
  e_charge ^ 2 / 2 / h_planck / alpha_target / 1e-15 = 25669697614569649 / 331303478500000.
Proof.
  rewrite e_charge_value, h_planck_value, alpha_target_value. lra.
Qed.

Lemma lt_div_r (a b c : R) : 0 < c -> a * c < b -> a < b / c.
Proof.
  intros Hc H. apply (Rmult_lt_reg_r c); [exact Hc|].
  replace (b / c * c) with b by (field; lra). exact H.
Qed.

Lemma lt_div_l (a b c : R) : 0 < c -> a < b * c -> a / c < b.
Proof.
  intros Hc H. apply (Rmult_lt_reg_r c); [exact Hc|].
  replace (a / c * c) with a by (field; lra). exact H.
Qed.

Lemma printed_L_enclosure :
  13.076920924612367 <
  1 / (e_charge ^ 2 / 2 / h_planck / alpha_target) / (2 * PI * f_target) ^ 2 / 1e-9
  < 13.076920924612369.
Proof.
  replace (e_charge ^ 2 / 2 / h_planck / alpha_target)
    with (25669697614569649 / 331303478500000000000000000000)
    by (rewrite e_charge_value, h_planck_value, alpha_target_value; lra).
  replace f_target with 5000000000 by (rewrite f_target_value; lra).
  replace 1e-9 with (/ 1000000000) by lra.
  pose proof PI_enclosure as [Hlo Hhi].
  set (P := PI) in *.
  assert (HP : 0 < P * P) by nra.
  replace (1 / (25669697614569649 / 331303478500000000000000000000) /
           (2 * P * 5000000000) ^ 2 / / 1000000000)
    with (3313034785000000000 / 25669697614569649 / (P * P)) by (field; lra).
  assert (Ha : 3.1415926535897932 * 3.1415926535897932 < P * P) by nra.
  assert (Hb : P * P < 3.1415926535897933 * 3.1415926535897933) by nra.
  split.
  - apply lt_div_r; [exact HP | lra].
  - apply lt_div_l; [exact HP | lra].
Qed.

Lemma sqrt_enclosure (x lo hi : R) :
  0 <= lo -> 0 <= hi -> lo * lo < x -> x < hi * hi -> lo < R_sqrt.sqrt x < hi.
Proof.
  intros Hlo Hhi Hl Hh.
  assert (0 <= lo * lo) by nra.
  rewrite <- (sqrt_square lo Hlo), <- (sqrt_square hi Hhi).
  split; apply sqrt_lt_1; lra.
Qed.

(** The number the last cell prints, in exact arithmetic. *)
Lemma printed_f_enclosure :
  4.998056418164590 <
  1 / R_sqrt.sqrt (Lj_literal * Cq_literal) / 2 / PI / 1e9
  < 4.998056418164591.
Proof.
  rewrite Lj_literal_value, Cq_literal_value.
  pose proof PI_enclosure as [Hlo Hhi].
  pose proof (sqrt_enclosure (13e-9 * 78e-15) 3.1843366656181315e-11 3.1843366656181316e-11)
    as [Hrl Hrh]; try lra.
  set (P := PI) in *. set (r := R_sqrt.sqrt (13e-9 * 78e-15)) in *.
  assert (Ht1 : 3.1843366656181315e-11 * 3.1415926535897932 < r * P) by nra.
  assert (Ht2 : r * P < 3.1843366656181316e-11 * 3.1415926535897933) by nra.
  replace 1e9 with 1000000000 by lra.
  replace (1 / r / 2 / P / 1000000000) with (1 / (r * P * 2000000000)) by (field; lra).
  split.
  - apply lt_div_r; lra.
  - apply lt_div_l; lra.
Qed.

(** On positive inputs the derived values are positive. *)
Lemma derived_C_pos (e h alpha : R) :
  e <> 0 -> 0 < h -> 0 < alpha -> 0 < e ^ 2 / 2 / h / alpha.
Proof.
  intros He Hh Ha.
  assert (0 < e ^ 2) by (simpl; nra).
  repeat apply Rdiv_lt_0_compat; lra.
Qed.

Lemma derived_L_pos (c f : R) : 0 < c -> 0 < f -> 0 < 1 / c / (2 * PI * f) ^ 2.
Proof.
  intros Hc Hf. pose proof PI_RGT_0.
  assert (0 < (2 * PI * f) ^ 2) by (apply pow_lt, Rmult_lt_0_compat; lra).
  repeat apply Rdiv_lt_0_compat; lra.
Qed.

(** * The claims *)

(** ** The claims that fail in machine arithmetic *)

Section MachineCounterexamples.

Import Binary64.


(** C9, as stated, fails in the arithmetic the cells run: in binary64, with
    the notebook's positive anharmonicity, the positive frequency 1e-200 makes
    [(2*pi*f)**2] underflow to zero and the derivation raises
    [ZeroDivisionError], and the positive frequency 1e200 makes it overflow
    and the derivation raises [OverflowError]. *)
Lemma C9_binary64_positive_inputs_raise :
  PrimFloat.ltb 0 alpha_target = true /\
  PrimFloat.ltb 0 (of_lit (Lit 1 (-200))) = true /\
  PrimFloat.ltb 0 (of_lit (Lit 1 200)) = true /\
  derived_values (num := float) e_charge h_planck alpha_target
    (of_lit (Lit 1 (-200))) = inl ZeroDivisionError /\
  derived_values (num := float) e_charge h_planck alpha_target
    (of_lit (Lit 1 200)) = inl OverflowError.
Proof. repeat split; vm_compute; reflexivity. Qed.


End MachineCounterexamples.


(** C1, as stated, fails: the cells after the derivation are not given the
    derived values. The capacitance and the inductance the notebook passes on
    ([78e-15] and [13e-9]) both differ from the derived [C] and [L]. *)
Lemma C1_later_cells_get_other_values :
  exists c l,
    derived_values e_charge h_planck alpha_target f_target = inr (c, l) /\
    c <> Cq_literal /\ l <> Lj_literal.
Proof.
  pose proof e_charge_pos. pose proof h_planck_pos.
  pose proof alpha_target_pos. pose proof f_target_pos.
  eexists _, _. split; [apply derived_values_exact; lra|]. split.
  - intros Hc. pose proof printed_C_exact as Hp. rewrite Hc, Cq_literal_value in Hp. lra.
  - intros Hl. pose proof printed_L_enclosure as Hp. rewrite Hl, Lj_literal_value in Hp. lra.
Qed.

(** C1, amended: in exact arithmetic the derivation cell, on the notebook's
    constants, leaves [C = e^2/(2 h alpha)] and [L = 1/((2 pi f)^2 C)]; the
    cells after it read neither: whatever the numeric globals hold, they end
    with the same trace and objects, and with [f] recomputed from the
    literals 13e-9 and 78e-15. *)
Theorem C1_derivation_and_later_cells :
  let e := 1.60217657e-19 in
  let h := 6.62606957e-34 in
  let alpha := 250e6 in
  let f := 5e9 in
  let C := e ^ 2 / (2 * h * alpha) in
  let L := 1 / ((2 * PI * f) ^ 2 * C) in
  derived_values e_charge h_planck alpha_target f_target = inr (C, L) /\
  forall (matrix : Type) (world : backend matrix) (k : kernel R matrix)
         (g : gmap string R),
  exists k1 k2,
    later_cells world Lj_literal Cq_literal k = inr (tt, k1) /\
    later_cells world Lj_literal Cq_literal (with_globals g k) = inr (tt, k2) /\
    trace k1 = trace k2 /\ design k1 = design k2 /\ c1 k1 = c1 k2 /\
    eig_1qb k1 = eig_1qb k2 /\
    globals k1 !! "f" = Some (1 / R_sqrt.sqrt (13e-9 * 78e-15) / 2 / PI) /\
    globals k2 !! "f" = Some (1 / R_sqrt.sqrt (13e-9 * 78e-15) / 2 / PI).
Proof.
  intros e h alpha f C L. split.
  - pose proof e_charge_pos. pose proof h_planck_pos.
    pose proof alpha_target_pos. pose proof f_target_pos. pose proof PI_RGT_0.
    rewrite derived_values_exact by lra.
    rewrite e_charge_value, h_planck_value, alpha_target_value, f_target_value.
    fold e h alpha f.
    assert (He : e <> 0) by (unfold e; lra).
    assert (Hh : h <> 0) by (unfold h; lra).
    assert (Ha : alpha <> 0) by (unfold alpha; lra).
    assert (Hf : f <> 0) by (unfold f; lra).
    do 2 f_equal; unfold L, C; field; repeat split; auto; lra.
  - intros matrix world k g.
    unfold later_cells.
    rewrite !(run_seq _ _ _ _ (simulation_cells_run _ _)).
    rewrite !check_cell_exact by exact literals_product_pos.
    eexists _, _. split; [reflexivity|]. split; [reflexivity|].
    kernel_simpl. rewrite !lookup_insert_eq, Lj_literal_value, Cq_literal_value.
    repeat split; reflexivity.
Qed.



(** C3: the run of the notebook makes the backend run exactly twice, the Q3D
    extraction first and the HFSS eigenmode analysis second, each on the
    component [Q1]. *)
Theorem C3_two_backend_runs (matrix : Type) (world : backend matrix) :
  exists k' : kernel R matrix,
    notebook world fresh_kernel = inr (tt, k') /\
    sim_runs (trace k') =
      [ (Q3D, {| run_components := ["Q1"]; open_terminations := []; port_list := None |});
        (HFSS, {| run_components := ["Q1"]; open_terminations := [];
                  port_list := Some [] |}) ] /\
    length (filter (fun ev => is_sim_run ev = true) (trace k')) = 2%nat.
Proof.
  eexists. split; [apply notebook_exact|]. kernel_simpl. split; reflexivity.
Qed.

(** C4: over the whole run exactly one component is built in the design, the
    [TransmonCross] named [Q1]; at the end it is the only component the
    design holds, and it has the five options of the cell with the values
    given there. *)
Theorem C4_single_component (matrix : Type) (world : backend matrix) :
  exists (k' : kernel R matrix) (d : design_state) (q1 : component),
    notebook world fresh_kernel = inr (tt, k') /\
    design k' = Some d /\
    built d = [("Q1", q1)] /\
    components d = {[ "Q1" := q1 ]} /\
    size (components d) = 1%nat /\
    comp_class q1 = "TransmonCross" /\
    comp_options q1 !! "cross_width" = Some "20um" /\
    comp_options q1 !! "cross_length" = Some "145um" /\
    comp_options q1 !! "cross_gap" = Some "20um" /\
    comp_options q1 !! "hfss_inductance" = Some "13nH" /\
    comp_options q1 !! "pos_x" = Some "2mm".
Proof.
  eexists _, _, _. split; [apply notebook_exact|]. kernel_simpl.
  split; [reflexivity|]. cbn [components built comp_class comp_options].
  split; [reflexivity|]. split; [reflexivity|]. split; [apply map_size_singleton|].
  repeat split; vm_compute; reflexivity.
Qed.

(** C5, as stated, fails: on the recorded session the trace has a [print]
    before a simulation run (the derived values are printed by the first
    cell). *)
Lemma C5_prints_before_simulations :
  exists k' : kernel R (list (list literal)),
    notebook recorded_world fresh_kernel = inr (tt, k') /\
    prints_after_runs (trace k') = false.
Proof.
  eexists. split; [apply notebook_exact|]. reflexivity.
Qed.

(** C5, amended: the whole trace of a run. The derived capacitance (in fF)
    and inductance (in nH) are printed first; the GUI calls, the two runs and
    the two displayed values follow; the frequency recomputed from 13 nH and
    78 fF is printed last (in GHz). Nothing else is printed and no event
    compares two values. *)
Theorem C5_trace_of_the_run (matrix : Type) (world : backend matrix) :
  exists (k' : kernel R matrix) c l d m s,
    notebook world fresh_kernel = inr (tt, k') /\
    derived_values e_charge h_planck alpha_target f_target = inr (c, l) /\
    trace k' =
      [ Print (c / 1e-15); Print (l / 1e-9);
        Gui GuiOpen; Gui GuiRebuild; Gui GuiAutoscale;
        SimRun Q3D d {| run_components := ["Q1"]; open_terminations := [];
                        port_list := None |} None;
        DisplayMatrix m; DisplaySetup s;
        SimRun HFSS d {| run_components := ["Q1"]; open_terminations := [];
                         port_list := Some [] |} (Some s);
        Print (1 / R_sqrt.sqrt (13e-9 * 78e-15) / 2 / PI / 1e9) ].
Proof.
  pose proof e_charge_pos. pose proof h_planck_pos.
  pose proof alpha_target_pos. pose proof f_target_pos.
  eexists _, _, _, _, _, _. split; [apply notebook_exact|].
  split; [apply derived_values_exact; lra|].
  kernel_simpl. rewrite Lj_literal_value, Cq_literal_value. reflexivity.
Qed.

(** C6: in exact arithmetic the first printed value rounds to 77.48 and is
    within 5e-14 of the displayed 77.4809178907237 (half a unit of its last
    digit); the second rounds to 13.08 and is within 5e-15 of the displayed
    13.076920924612372. *)
Theorem C6_printed_values (matrix : Type) (world : backend matrix) :
  exists (k' : kernel R matrix) pc pl pf,
    notebook world fresh_kernel = inr (tt, k') /\
    printed (trace k') = [pc; pl; pf] /\
    77.475 <= pc < 77.485 /\ Rabs (pc - 77.4809178907237) < 5e-14 /\
    13.075 <= pl < 13.085 /\ Rabs (pl - 13.076920924612372) < 5e-15.
Proof.
  eexists _, _, _, _. split; [apply notebook_exact|]. kernel_simpl.
  split; [reflexivity|].
  rewrite printed_C_exact. pose proof printed_L_enclosure as [Hlo Hhi].
  split; [lra|]. split; [apply Rabs_def1; lra|].
  split; [lra|]. apply Rabs_def1; lra.
Qed.

(** C7: whatever the arithmetic, two runs of the notebook on the same six
    numbers print the same values and end with the same [C], [L] and [f] (or
    raise the same exception), whatever the kernel held before and whatever
    the backend answers. *)
Theorem C7_runs_agree (num : Type) (arith : PyFloat num) (matrix : Type)
    (w1 w2 : backend matrix) (e h alpha f Lj Cq : num)
    (g1 g2 : gmap string num) (d1 d2 : option design_state)
    (m1 m2 : option (option matrix)) (s1 s2 : option eig_setup) :
  numeric_outcome (notebook_on w1 e h alpha f Lj Cq
      {| globals := g1; design := d1; c1 := m1; eig_1qb := s1; trace := [] |}) =
  numeric_outcome (notebook_on w2 e h alpha f Lj Cq
      {| globals := g2; design := d2; c1 := m2; eig_1qb := s2; trace := [] |}).
Proof.
  unfold notebook_on, derivation_cell.
  do 6 (rewrite !seq_assoc; apply outcome_seq_assign;
        [same_value | intros ?; kernel_simpl]).
  do 2 (rewrite ?seq_assoc; apply outcome_seq_print;
        [same_value | intros ?; kernel_simpl]).
  unfold later_cells.
  rewrite !(run_seq _ _ _ _ (simulation_cells_run _ _)).
  unfold check_cell.
  apply outcome_seq_assign; [same_value | intros ?].
  apply outcome_print; kernel_simpl; same_value.
Qed.

(** C8: the component option [hfss_inductance], the setup variable [Lj] the
    eigenmode run is made with, and the literal of the last cell all denote
    13e-9 H, and 13 is the derived [L] in nH rounded to the nearest integer. *)
Theorem C8_one_inductance (matrix : Type) (world : backend matrix) :
  exists (k' : kernel R matrix) d q1 s a l opt_L var_Lj,
    notebook world fresh_kernel = inr (tt, k') /\
    design k' = Some d /\ components d !! "Q1" = Some q1 /\
    comp_options q1 !! "hfss_inductance" = Some opt_L /\
    quantity_literal opt_L = Some (Lit 13 (-9)) /\
    SimRun HFSS d a (Some s) ∈ trace k' /\
    vars s !! "Lj" = Some var_Lj /\
    quantity_literal var_Lj = Some (Lit 13 (-9)) /\
    globals k' !! "f" =
      Some (1 / R_sqrt.sqrt (of_lit (Lit 13 (-9)) * Cq_literal) / 2 / PI) /\
    globals k' !! "L" = Some l /\
    rounds_to (l / 1e-9) 13.
Proof.
  eexists _, _, _, _, _, _, _, _. split; [apply notebook_exact|]. kernel_simpl.
  split; [reflexivity|]. cbn [components].
  split; [apply lookup_singleton_eq|]. cbn [comp_options].
  split; [vm_compute; reflexivity|].
  split; [vm_compute; reflexivity|].
  split; [repeat (first [apply list_elem_of_here | apply list_elem_of_further])|].
  split; [vm_compute; reflexivity|].
  split; [vm_compute; reflexivity|].
  split; [apply lookup_insert_eq|].
  split; [rewrite lookup_insert_ne, lookup_insert_eq by discriminate; reflexivity|].
  pose proof printed_L_enclosure as [Hlo Hhi]. unfold rounds_to. lra.
Qed.

(** C9, amended: in exact arithmetic, for every positive anharmonicity and frequency,
    the three expressions evaluate without a fault (a zero divisor and a
    negative square root are the faults of the model), and the derived [C]
    and [L] are positive. *)
Theorem C9_derivation_total (alpha f : R) :
  0 < alpha -> 0 < f ->
  exists c l v,
    derived_values e_charge h_planck alpha f = inr (c, l) /\
    round_trip e_charge h_planck alpha f = inr v /\
    0 < c /\ 0 < l /\ 0 <= l * c.
Proof.
  intros Ha Hf. pose proof e_charge_pos as He. pose proof h_planck_pos as Hh.
  eexists _, _, f.
  split; [apply derived_values_exact; lra|].
  split; [apply round_trip_exact; lra|].
  assert (Hc : 0 < e_charge ^ 2 / 2 / h_planck / alpha) by (apply derived_C_pos; lra).
  assert (Hl : 0 < 1 / (e_charge ^ 2 / 2 / h_planck / alpha) / (2 * PI * f) ^ 2)
    by (apply derived_L_pos; lra).
  split; [exact Hc|]. split; [exact Hl|].
  apply Rmult_le_pos; lra.
Qed.

(** C9 at the notebook's own anharmonicity and frequency. *)
Lemma C9_derivation_total_witness :
  0 < alpha_target /\ 0 < f_target /\
  exists c l v,
    derived_values e_charge h_planck alpha_target f_target = inr (c, l) /\
    round_trip e_charge h_planck alpha_target f_target = inr v /\
    0 < c /\ 0 < l /\ 0 <= l * c.
Proof.
  assert (Ha : 0 < alpha_target) by (unfold alpha_target; lit_simpl; lra).
  assert (Hf : 0 < f_target) by (unfold f_target; lit_simpl; lra).
  split; [exact Ha|]. split; [exact Hf|].
  exact (C9_derivation_total alpha_target f_target Ha Hf).
Defined.



(** * Further properties *)

(** X2: in exact arithmetic the number the last cell prints lies between
    4.998056418164590 and 4.998056418164591, the value displayed in the
    notebook. *)
Theorem X2_printed_frequency (matrix : Type) (world : backend matrix) :
  exists (k' : kernel R matrix) pc pl pf,
    notebook world fresh_kernel = inr (tt, k') /\
    printed (trace k') = [pc; pl; pf] /\
    4.998056418164590 < pf < 4.998056418164591.
Proof.
  eexists _, _, _, _. split; [apply notebook_exact|]. kernel_simpl.
  split; [reflexivity|]. exact printed_f_enclosure.
Qed.

Section MachineRuns.

Import Binary64.

(** The literals of the notebook and the three numbers it displays, as the
    doubles Python reads them to ([float.hex]). *)
Lemma literals_as_doubles :
  e_charge = 0x1.7a4da19339af4p-63%float /\
  h_planck = 0x1.b860bb596a559p-111%float /\
  alpha_target = 0x1.dcd65p+27%float /\
  f_target = 0x1.2a05f2p+32%float /\
  Lj_literal = 0x1.bead3593f1cb2p-27%float /\
  Cq_literal = 0x1.5f47e09a9f0eap-44%float /\
  of_lit (Lit 1 (-15)) = 0x1.203af9ee75616p-50%float /\
  of_lit (Lit 1 (-9)) = 0x1.12e0be826d695p-30%float /\
  of_lit (Lit 1 9) = 0x1.dcd65p+29%float /\
  of_lit (Lit 774809178907237 (-13)) = 0x1.35ec75bd52e0ep+6%float /\
  of_lit (Lit 13076920924612372 (-15)) = 0x1.a27622def2d2bp+3%float /\
  of_lit (Lit 4998056418164591 (-15)) = 0x1.3fe02806e51bcp+2%float.
Proof. vm_compute. repeat split; reflexivity. Qed.

(** X1: in binary64, on the recorded session, the notebook runs to the end;
    it prints 77.4809178907237, 13.076920924612372 and 4.998056418164591, the
    three outputs recorded in the notebook, and leaves
    [C = 7.74809178907237e-14], [L = 1.3076920924612372e-08] and
    [f = 4998056418.164591]. *)
Theorem X1_binary64_replay :
  numeric_outcome (notebook (num := float) recorded_world fresh_kernel) =
  inr ([of_lit (Lit 774809178907237 (-13)); of_lit (Lit 13076920924612372 (-15));
        of_lit (Lit 4998056418164591 (-15))],
       Some (of_lit (Lit 774809178907237 (-28))),
       Some (of_lit (Lit 13076920924612372 (-24))),
       Some (of_lit (Lit 4998056418164591 (-6)))).
Proof. vm_compute. reflexivity. Qed.

(** X5: in binary64 too, whatever the backend answers, the notebook runs to
    the end with the same ten events and the same single component. *)
Theorem X5_binary64_trace (matrix : Type) (world : backend matrix) :
  exists (k' : kernel float matrix) pc pl pf d s,
    notebook world fresh_kernel = inr (tt, k') /\
    design k' = Some d /\
    components d = {[ "Q1" := Component "TransmonCross" design_options ]} /\
    trace k' =
      [ Print pc; Print pl;
        Gui GuiOpen; Gui GuiRebuild; Gui GuiAutoscale;
        SimRun Q3D d {| run_components := ["Q1"]; open_terminations := [];
                        port_list := None |} None;
        DisplayMatrix (q3d_extract world d
                         {| run_components := ["Q1"]; open_terminations := [];
                            port_list := None |});
        DisplaySetup s;
        SimRun HFSS d {| run_components := ["Q1"]; open_terminations := [];
                         port_list := Some [] |} (Some s);
        Print pf ].
Proof.
  eexists _, _, _, _, _, _.
  split; [vm_compute; reflexivity|].
  split; [reflexivity|]. split; reflexivity.
Qed.

(** X3: in binary64 the round trip on the notebook's inputs returns
    4999999999.999999, the double just below the target 5e9: the recovery is
    exact only up to rounding. *)
Theorem X3_binary64_round_trip :
  round_trip (num := float) e_charge h_planck alpha_target f_target =
    inr (of_lit (Lit 4999999999999999 (-6))) /\
  PrimFloat.eqb (of_lit (Lit 4999999999999999 (-6))) f_target = false /\
  PrimFloat.next_up (of_lit (Lit 4999999999999999 (-6))) = f_target.
Proof. vm_compute. repeat split; reflexivity. Qed.

(** X4: in binary64 a positive frequency small enough for [(2 pi f)**2] to
    underflow makes the derivation divide by zero: at [f = 1e-200] the cell
    raises [ZeroDivisionError]. *)
Theorem X4_binary64_underflow :
  derived_values (num := float) e_charge h_planck alpha_target (of_lit (Lit 1 (-200))) =
    inl ZeroDivisionError /\
  PrimFloat.ltb 0 (of_lit (Lit 1 (-200))) = true.
Proof. vm_compute. split; reflexivity. Qed.

End MachineRuns.

(** * The cells one by one *)

(** ** Faults *)

Section Faults.

Context {num : Type} `{PyFloat num} {matrix : Type}.
Implicit Types (g : gmap string num) (a b : expr num) (k : kernel num matrix).




End Faults.




(** X7: in exact arithmetic, on nonzero inputs of any sign, the round trip
    returns the absolute value of the frequency: the sign of the
    anharmonicity is immaterial and a negative frequency comes back
    positive. *)
Theorem X7_round_trip_absolute_value (e h alpha f : R) :
  e <> 0 -> h <> 0 -> alpha <> 0 -> f <> 0 ->
  round_trip e h alpha f = inr (Rabs f).
Proof.
  intros He Hh Ha Hf. unfold round_trip.
  rewrite derivation_cell_exact by assumption. kernel_simpl.
  set (c := e ^ 2 / 2 / h / alpha). set (l := 1 / c / (2 * PI * f) ^ 2).
  assert (Hc : c <> 0) by (apply derived_C_neq0; assumption).
  assert (Hlc : l * c = (1 / (2 * PI * f)) ^ 2) by (apply LC_product; assumption).
  pose proof (two_pi_f_neq0 f Hf) as Hpf. pose proof PI_RGT_0 as Hpi.
  assert (Hinv : 1 / (2 * PI * f) <> 0).
  { unfold Rdiv. rewrite Rmult_1_l. now apply Rinv_neq_0_compat. }
  erewrite transition_frequency_exact;
    [| eapply eval_var; simplify_map_eq; reflexivity ..
     | fold c l; rewrite Hlc; simpl; nra ].
  fold c l. rewrite Hlc, <- Rsqr_pow2, sqrt_Rsqr_abs.
  assert (Habs : Rabs (1 / (2 * PI * f)) = 1 / (2 * PI * Rabs f)).
  { unfold Rdiv. rewrite Rabs_mult, Rabs_R1, Rabs_inv, !Rabs_mult.
    rewrite (Rabs_pos_eq 2), (Rabs_pos_eq PI) by lra. reflexivity. }
  assert (Rabs f <> 0) by now apply Rabs_no_R0.
  rewrite Habs. f_equal. field. lra.
Qed.

(** X7 at a negative anharmonicity and a negative frequency. *)
Lemma X7_round_trip_absolute_value_witness :
  e_charge <> 0 /\ h_planck <> 0 /\ (-250e6) <> 0 /\ (-5e9) <> 0 /\
  round_trip e_charge h_planck (-250e6) (-5e9) = inr (Rabs (-5e9)).
Proof.
  assert (He : e_charge <> 0) by (unfold e_charge; lit_simpl; lra).
  assert (Hh : h_planck <> 0) by (unfold h_planck; lit_simpl; lra).
  assert (Ha : -250e6 <> 0) by lra.
  assert (Hf : -5e9 <> 0) by lra.
  repeat (split; [assumption|]).
  exact (X7_round_trip_absolute_value e_charge h_planck (-250e6) (-5e9) He Hh Ha Hf).
Defined.

(** X8: in exact arithmetic, for a fixed positive anharmonicity, the derived
    [C] does not depend on the frequency and gives back the anharmonicity as
    [e^2/2/h/C]; the derived [L] is strictly smaller at a larger frequency,
    with [L * f^2] constant. *)
Theorem X8_dependence_on_frequency (alpha f1 f2 : R) :
  0 < alpha -> 0 < f1 -> f1 < f2 ->
  exists c l1 l2,
    derived_values e_charge h_planck alpha f1 = inr (c, l1) /\
    derived_values e_charge h_planck alpha f2 = inr (c, l2) /\
    e_charge ^ 2 / 2 / h_planck / c = alpha /\
    l2 < l1 /\ l1 * f1 ^ 2 = l2 * f2 ^ 2.
Proof.
  intros Ha Hf1 Hf12.
  pose proof e_charge_pos as He. pose proof h_planck_pos as Hh. pose proof PI_RGT_0 as Hpi.
  eexists _, _, _.
  split; [apply derived_values_exact; lra|].
  split; [apply derived_values_exact; lra|].
  set (c := e_charge ^ 2 / 2 / h_planck / alpha).
  assert (Hc : 0 < c) by (apply derived_C_pos; lra).
  split; [unfold c; field; lra|].
  split.
  - unfold Rdiv. apply Rmult_lt_compat_l.
    + apply Rmult_lt_0_compat; [lra | now apply Rinv_0_lt_compat].
    + apply Rinv_lt_contravar.
      * apply Rmult_lt_0_compat; apply pow_lt; apply Rmult_lt_0_compat; lra.
      * assert (0 < 2 * PI * f1) by (apply Rmult_lt_0_compat; lra).
        assert (2 * PI * f1 < 2 * PI * f2) by (apply Rmult_lt_compat_l; lra).
        simpl. nra.
  - field. lra.
Qed.

(** X8 at the notebook's anharmonicity, for 5 GHz and 6 GHz. *)
Lemma X8_dependence_on_frequency_witness :
  0 < alpha_target /\ 0 < 5e9 /\ 5e9 < 6e9 /\
  exists c l1 l2,
    derived_values e_charge h_planck alpha_target 5e9 = inr (c, l1) /\
    derived_values e_charge h_planck alpha_target 6e9 = inr (c, l2) /\
    e_charge ^ 2 / 2 / h_planck / c = alpha_target /\
    l2 < l1 /\ l1 * 5e9 ^ 2 = l2 * 6e9 ^ 2.
Proof.
  assert (Ha : 0 < alpha_target) by (unfold alpha_target; lit_simpl; lra).
  assert (H1 : 0 < 5e9) by lra.
  assert (H2 : 5e9 < 6e9) by lra.
  repeat (split; [assumption|]).
  exact (X8_dependence_on_frequency alpha_target 5e9 6e9 Ha H1 H2).
Defined.

(** X9: in exact arithmetic, on a positive inductance and capacitance, the
    frequency formula of the last cell gives a positive value, the same when
    the two arguments are exchanged; multiplying the inductance by [s^2]
    divides the frequency by [s]; a larger capacitance gives a strictly
    smaller frequency. *)
Theorem X9_frequency_formula (Lj Cq Cq' s : R) (g : gmap string R) :
  0 < Lj -> 0 < Cq -> Cq < Cq' -> 0 < s ->
  exists f0 f',
    transition_frequency (const Lj) (const Cq) g = inr f0 /\
    transition_frequency (const Cq) (const Lj) g = inr f0 /\
    transition_frequency (const (s ^ 2 * Lj)) (const Cq) g = inr (f0 / s) /\
    transition_frequency (const Lj) (const Cq') g = inr f' /\
    0 < f' < f0.
Proof.
  intros HL HC HC' Hs. pose proof PI_RGT_0 as Hpi.
  assert (HLC : 0 < Lj * Cq) by (apply Rmult_lt_0_compat; lra).
  assert (HLC' : 0 < Lj * Cq') by (apply Rmult_lt_0_compat; lra).
  assert (Hs2 : 0 < s ^ 2) by (apply pow_lt; lra).
  assert (HsLC : 0 < s ^ 2 * Lj * Cq) by (repeat apply Rmult_lt_0_compat; lra).
  assert (Hr : 0 < R_sqrt.sqrt (Lj * Cq)) by now apply sqrt_lt_R0.
  assert (Hr' : R_sqrt.sqrt (Lj * Cq) < R_sqrt.sqrt (Lj * Cq')).
  { apply sqrt_lt_1; try lra. apply Rmult_lt_compat_l; lra. }
  eexists _, _.
  split; [apply transition_frequency_exact; [apply eval_const .. | exact HLC]|].
  split.
  { rewrite (transition_frequency_exact _ _ g Cq Lj);
      [| apply eval_const .. | rewrite Rmult_comm; exact HLC].
    now rewrite (Rmult_comm Cq Lj). }
  split.
  { rewrite (transition_frequency_exact _ _ g (s ^ 2 * Lj) Cq);
      [| apply eval_const .. | exact HsLC].
    f_equal. rewrite Rmult_assoc, sqrt_mult by lra.
    rewrite <- Rsqr_pow2, sqrt_Rsqr by lra. field. lra. }
  split; [apply transition_frequency_exact; [apply eval_const .. | exact HLC']|].
  split.
  - repeat apply Rdiv_lt_0_compat; lra.
  - unfold Rdiv. rewrite !Rmult_1_l.
    repeat apply Rmult_lt_compat_r; try (apply Rinv_0_lt_compat; lra).
    apply Rinv_lt_contravar; [apply Rmult_lt_0_compat; lra | exact Hr'].
Qed.

(** X9 at the literals of the last cell, 80 fF and a factor 2. *)
Lemma X9_frequency_formula_witness :
  0 < 13e-9 /\ 0 < 78e-15 /\ 78e-15 < 80e-15 /\ 0 < 2 /\
  exists f0 f',
    transition_frequency (const 13e-9) (const 78e-15) ∅ = inr f0 /\
    transition_frequency (const 78e-15) (const 13e-9) ∅ = inr f0 /\
    transition_frequency (const (2 ^ 2 * 13e-9)) (const 78e-15) ∅ = inr (f0 / 2) /\
    transition_frequency (const 13e-9) (const 80e-15) ∅ = inr f' /\
    0 < f' < f0.
Proof.
  assert (H1 : 0 < 13e-9) by lra.
  assert (H2 : 0 < 78e-15) by lra.
  assert (H3 : 78e-15 < 80e-15) by lra.
  assert (H4 : 0 < 2) by lra.
  repeat (split; [assumption|]).
  exact (X9_frequency_formula 13e-9 78e-15 80e-15 2 ∅ H1 H2 H3 H4).
Defined.

(** X10: in exact arithmetic, on nonzero inputs and literals of positive
    product, the notebook ends with [e], [h], [alpha], [C] and [L] as the
    first cell set them, but with [f] overwritten by the last cell: the target
    frequency is no longer in the kernel. *)
Theorem X10_last_cell_overwrites_f (matrix : Type) (world : backend matrix)
    (e h alpha f Lj Cq : R) :
  e <> 0 -> h <> 0 -> alpha <> 0 -> f <> 0 -> 0 < Lj * Cq ->
  exists (k' : kernel R matrix) c l,
    notebook_on world e h alpha f Lj Cq fresh_kernel = inr (tt, k') /\
    derived_values e h alpha f = inr (c, l) /\
    globals k' !! "e" = Some e /\ globals k' !! "h" = Some h /\
    globals k' !! "alpha" = Some alpha /\
    globals k' !! "C" = Some c /\ globals k' !! "L" = Some l /\
    globals k' !! "f" = Some (1 / R_sqrt.sqrt (Lj * Cq) / 2 / PI) /\
    dom (globals k') = {[ "e"; "h"; "alpha"; "f"; "C"; "L" ]}.
Proof.
  intros He Hh Ha Hf Hpos.
  eexists _, _, _. split.
  { unfold notebook_on, later_cells.
    erewrite run_seq; [| apply derivation_cell_exact; assumption ].
    erewrite run_seq; [| apply simulation_cells_run ].
    rewrite check_cell_exact by exact Hpos. reflexivity. }
  split; [apply derived_values_exact; assumption|].
  unfold fresh_kernel. kernel_simpl.
  repeat (split; [simplify_map_eq; reflexivity|]).
  rewrite !dom_insert_L, dom_empty_L. set_solver.
Qed.

(** X10 at the notebook's own numbers. *)
Lemma X10_last_cell_overwrites_f_witness :
  e_charge <> 0 /\ h_planck <> 0 /\ alpha_target <> 0 /\ f_target <> 0 /\
  0 < Lj_literal * Cq_literal /\
  exists (k' : kernel R unit) c l,
    notebook_on {| q3d_extract := fun _ _ => tt;
                   hfss_defaults := hfss_defaults recorded_world |}
      e_charge h_planck alpha_target f_target Lj_literal Cq_literal fresh_kernel
      = inr (tt, k') /\
    derived_values e_charge h_planck alpha_target f_target = inr (c, l) /\
    globals k' !! "e" = Some e_charge /\ globals k' !! "h" = Some h_planck /\
    globals k' !! "alpha" = Some alpha_target /\
    globals k' !! "C" = Some c /\ globals k' !! "L" = Some l /\
    globals k' !! "f" = Some (1 / R_sqrt.sqrt (Lj_literal * Cq_literal) / 2 / PI) /\
    dom (globals k') = {[ "e"; "h"; "alpha"; "f"; "C"; "L" ]}.
Proof.
  assert (He : e_charge <> 0) by (unfold e_charge; lit_simpl; lra).
  assert (Hh : h_planck <> 0) by (unfold h_planck; lit_simpl; lra).
  assert (Ha : alpha_target <> 0) by (unfold alpha_target; lit_simpl; lra).
  assert (Hf : f_target <> 0) by (unfold f_target; lit_simpl; lra).
  assert (Hp : 0 < Lj_literal * Cq_literal)
    by (unfold Lj_literal, Cq_literal; lit_simpl; lra).
  repeat (split; [assumption|]).
  exact (X10_last_cell_overwrites_f unit _ e_charge h_planck alpha_target f_target
           Lj_literal Cq_literal He Hh Ha Hf Hp).
Defined.

Section AnyArithmetic.

Context {num : Type} `{PyFloat num} {matrix : Type}.


(** X12: a cell run before the cell that binds what it needs raises
    [NameError]: the Q3D cell and the setup cell without [design], the HFSS
    cell without [eig_1qb]; nothing is sent to the backend. *)
Theorem X12_cells_out_of_order (world : backend matrix) (g : gmap string num)
    (d : option design_state) (m : option (option matrix))
    (s : option eig_setup) (t : list (event num matrix)) :
  q3d_cell world {| globals := g; design := None; c1 := m; eig_1qb := s; trace := t |}
    = inl (NameError "design") /\
  setup_cell world {| globals := g; design := None; c1 := m; eig_1qb := s; trace := t |}
    = inl (NameError "design") /\
  hfss_cell {| globals := g; design := d; c1 := m; eig_1qb := None; trace := t |}
    = inl (NameError "eig_1qb").
Proof. repeat split; reflexivity. Qed.

(** X13: the five cells between the derivation and the last one run to the
    end from any kernel, for any arithmetic and backend.  They leave the
    numeric globals alone, print nothing, replace whatever design and
    analyses were bound, and the setup the eigenmode run is made with has the
    five assigned fields whatever the defaults were and the framework's
    defaults in the seven others. *)
Theorem X13_simulation_cells_frame (world : backend matrix) (k : kernel num matrix) :
  exists k' d s evs,
    simulation_cells world k = inr (tt, k') /\
    globals k' = globals k /\
    trace k' = (trace k ++ evs)%list /\ length evs = 7%nat /\ printed evs = [] /\
    design k' = Some d /\
    components d = {[ "Q1" := Component "TransmonCross" design_options ]} /\
    built d = [("Q1", Component "TransmonCross" design_options)] /\
    eig_1qb k' = Some s /\
    SimRun HFSS d {| run_components := ["Q1"]; open_terminations := [];
                     port_list := Some [] |} (Some s) ∈ evs /\
    max_passes s = 12%Z /\ max_delta_f s = Lit 1 (-1) /\ min_freq_ghz s = 1%Z /\
    n_modes s = 1%Z /\ vars s = {[ "Lj" := "13 nH"; "Cj" := "0 fF" ]} /\
    setup_name s = setup_name (hfss_defaults world) /\
    reuse_selected_design s = reuse_selected_design (hfss_defaults world) /\
    reuse_setup s = reuse_setup (hfss_defaults world) /\
    min_passes s = min_passes (hfss_defaults world) /\
    min_converged s = min_converged (hfss_defaults world) /\
    pct_refinement s = pct_refinement (hfss_defaults world) /\
    basis_order s = basis_order (hfss_defaults world).
Proof.
  eexists _, _, _, _. split; [apply simulation_cells_run|].
  cbn [globals design c1 eig_1qb trace components].
  cbn [components built].
  do 8 (split; [reflexivity|]).
  split; [repeat (first [apply list_elem_of_here | apply list_elem_of_further])|].
  repeat split; reflexivity.
Qed.

End AnyArithmetic.

Section MachineFaults.

Import Binary64.

(** X14: in binary64 a zero anharmonicity or a zero frequency never yields
    derived values: whatever the other inputs are (infinities and nan
    included), the derivation cell raises. *)
Theorem X14_binary64_zero_input (e h x : float) :
  (exists err, derived_values e h 0%float x = inl err) /\
  (exists err, derived_values e h x 0%float = inl err).
Proof.
  split; unfold derived_values; vm_compute;
    repeat (match goal with
            | |- context [match ?b with true => _ | false => _ end] => destruct b
            end; vm_compute);
    eexists; reflexivity.
Qed.

End MachineFaults.

(** ** What a completed run looks like, for any arithmetic *)

Section Inversion.

Context {num : Type} `{PyFloat num} {matrix : Type}.
Implicit Types (a : expr num) (k : kernel num matrix).

Lemma seq_inv (c c' : script num matrix unit) k k'' :
  seq c c' k = inr (tt, k'') ->
  exists k', c k = inr (tt, k') /\ c' k' = inr (tt, k'').
Proof.
  unfold seq, bind. destruct (c k) as [err|[[] k']]; [discriminate|].
  intros Hc. now exists k'.
Qed.

Lemma assign_inv x a k k' :
  assign x a k = inr (tt, k') ->
  exists v, k' = with_globals (<[x := v]> (globals k)) k.
Proof.
  unfold assign. destruct (a (globals k)) as [err|v]; [discriminate|].
  intros [= <-]. now exists v.
Qed.

Lemma print_inv a k k' :
  print a k = inr (tt, k') ->
  exists v, k' = {| globals := globals k; design := design k; c1 := c1 k;
                    eig_1qb := eig_1qb k; trace := (trace k ++ [Print v])%list |}.
Proof.
  unfold print, emit. destruct (a (globals k)) as [err|v]; [discriminate|].
  intros [= <-]. now exists v.
Qed.

(** A completed derivation cell changed the numeric globals only and added
    two prints. *)
Lemma derivation_cell_frame (e h alpha f : num) k k' :
  derivation_cell e h alpha f k = inr (tt, k') ->
  exists pc pl,
    design k' = design k /\ c1 k' = c1 k /\ eig_1qb k' = eig_1qb k /\
    trace k' = (trace k ++ [Print pc; Print pl])%list.
Proof.
  unfold derivation_cell. intros Hrun.
  do 6 (apply seq_inv in Hrun as (? & (? & ->)%assign_inv & Hrun)).
  apply seq_inv in Hrun as (? & (pc & ->)%print_inv & (pl & ->)%print_inv).
  exists pc, pl. cbn [globals design c1 eig_1qb trace with_globals].
  rewrite <- app_assoc. repeat split; reflexivity.
Qed.

(** A completed last cell changed [f] only and added one print. *)
Lemma check_cell_frame (Lj Cq : num) k k' :
  check_cell Lj Cq k = inr (tt, k') ->
  exists v pf,
    globals k' = <["f" := v]> (globals k) /\
    design k' = design k /\ c1 k' = c1 k /\ eig_1qb k' = eig_1qb k /\
    trace k' = (trace k ++ [Print pf])%list.
Proof.
  unfold check_cell. intros Hrun.
  apply seq_inv in Hrun as (? & (v & ->)%assign_inv & (pf & ->)%print_inv).
  exists v, pf. repeat split; reflexivity.
Qed.

(** X15: for any arithmetic, any six numbers and any backend, a run of the
    notebook that completes has the same ten events: only the three printed
    numbers depend on the numeric inputs, and what is sent to the two solvers
    (the design with [Q1], the arguments, the setup) does not. *)
Theorem X15_numbers_never_reach_the_backend (world : backend matrix)
    (e h alpha f Lj Cq : num) (k' : kernel num matrix) :
  notebook_on world e h alpha f Lj Cq fresh_kernel = inr (tt, k') ->
  let d := {| overwrite_enabled := true;
              components := {[ "Q1" := Component "TransmonCross" design_options ]};
                        built := [("Q1", Component "TransmonCross" design_options)] |} in
  let s := set_vars {[ "Lj" := "13 nH"; "Cj" := "0 fF" ]}
             (set_n_modes 1 (set_min_freq_ghz 1 (set_max_delta_f (Lit 1 (-1))
                (set_max_passes 12 (hfss_defaults world))))) in
  let a1 := {| run_components := ["Q1"]; open_terminations := []; port_list := None |} in
  let a2 := {| run_components := ["Q1"]; open_terminations := []; port_list := Some [] |} in
  exists pc pl pf,
    trace k' = [ Print pc; Print pl;
                 Gui GuiOpen; Gui GuiRebuild; Gui GuiAutoscale;
                 SimRun Q3D d a1 None; DisplayMatrix (q3d_extract world d a1);
                 DisplaySetup s; SimRun HFSS d a2 (Some s);
                 Print pf ] /\
    design k' = Some d /\ eig_1qb k' = Some s.
Proof.
  intros Hrun d s a1 a2. unfold notebook_on, later_cells in Hrun.
  apply seq_inv in Hrun as (k1 & Hder & Hrun).
  apply derivation_cell_frame in Hder as (pc & pl & _ & _ & _ & Ht1).
  apply seq_inv in Hrun as (k2 & Hsim & Hchk).
  rewrite simulation_cells_run in Hsim. injection Hsim as <-.
  apply check_cell_frame in Hchk as (v & pf & _ & Hd & _ & Hs & Ht).
  exists pc, pl, pf. rewrite Ht, Hd, Hs.
  cbn [globals design c1 eig_1qb trace]. rewrite Ht1.
  cbn [fresh_kernel trace app]. repeat split; reflexivity.
Qed.

End Inversion.

(** X15 on the recorded session, in exact arithmetic. *)
Lemma X15_numbers_never_reach_the_backend_witness :
  exists k' : kernel R (list (list literal)),
    notebook_on recorded_world e_charge h_planck alpha_target f_target
      Lj_literal Cq_literal fresh_kernel = inr (tt, k') /\
    exists pc pl pf,
      trace k' =
        [ Print pc; Print pl; Gui GuiOpen; Gui GuiRebuild; Gui GuiAutoscale;
          SimRun Q3D {| overwrite_enabled := true;
                        components := {[ "Q1" := Component "TransmonCross" design_options ]};
                        built := [("Q1", Component "TransmonCross" design_options)] |}
            {| run_components := ["Q1"]; open_terminations := []; port_list := None |} None;
          DisplayMatrix recorded_matrix;
          DisplaySetup (hfss_defaults recorded_world);
          SimRun HFSS {| overwrite_enabled := true;
                         components := {[ "Q1" := Component "TransmonCross" design_options ]};
                        built := [("Q1", Component "TransmonCross" design_options)] |}
            {| run_components := ["Q1"]; open_terminations := []; port_list := Some [] |}
            (Some (hfss_defaults recorded_world));
          Print pf ] /\
      design k' = Some {| overwrite_enabled := true;
                          components := {[ "Q1" := Component "TransmonCross" design_options ]};
                        built := [("Q1", Component "TransmonCross" design_options)] |} /\
      eig_1qb k' = Some (hfss_defaults recorded_world).
Proof.
  eexists. split; [exact (notebook_exact recorded_world)|].
  exact (X15_numbers_never_reach_the_backend recorded_world e_charge h_planck
           alpha_target f_target Lj_literal Cq_literal _ (notebook_exact recorded_world)).
Defined.
